(** * Mergington High School activities API: the activity registry

    A shallow embedding of [src/app.py]: the in-memory [activities]
    dictionary, the request handlers [get_activities] and
    [signup_for_activity], and the properties the specification states
    about them; then sequences of signup calls as the test suite makes
    them, and the command-line logic of [run_tests.py]. *)

From Stdlib Require Import ZArith Ascii String List.
From stdpp Require Import gmap strings list fin_maps pretty.

Local Open Scope string_scope.
Local Open Scope list_scope.
Local Open Scope Z_scope.

(** ** Data model *)

(** One value of the [activities] dictionary: a dict with the four keys
    ["description"], ["schedule"], ["max_participants"] and
    ["participants"].  Python integers are unbounded, hence [Z]. *)
Record Activity : Type := mkActivity {
  description : string;
  schedule : string;
  max_participants : Z;
  participants : list string
}.

(** The same dict after its ["participants"] list was mutated in place
    into [ps]; the other three entries are never written. *)
Definition with_participants (a : Activity) (ps : list string) : Activity :=
  mkActivity (description a) (schedule a) (max_participants a) ps.

(** [fastapi.HTTPException(status_code=..., detail=...)]. *)
Record HTTPException : Type := mkHTTPException {
  status_code : Z;
  detail : string
}.

(** What a handler call ends with: the exception it raised or the value
    it returned. *)
Inductive Outcome (A : Type) : Type :=
  | Raised (e : HTTPException)
  | Returned (v : A).
Arguments Raised {A} e.
Arguments Returned {A} v.

(** The response body of a successful signup, [{"message": ...}]. *)
Record Message : Type := mkMessage { message : string }.

(** ** Handlers as state transformers over the module-level dictionary *)

Module Handler.

(** A handler reads and mutates the global [activities] and either
    raises or returns.  Mutations made before a [raise] stay. *)
Definition t (A : Type) : Type :=
  gmap string Activity → gmap string Activity * Outcome A.

Definition ret {A} (v : A) : t A := λ σ, (σ, Returned v).

Definition raise {A} (e : HTTPException) : t A := λ σ, (σ, Raised e).

Definition bind {A B} (m : t A) (k : A → t B) : t B :=
  λ σ, match m σ with
       | (σ', Returned v) => k v σ'
       | (σ', Raised e) => (σ', Raised e)
       end.

(** The global [activities] object itself. *)
Definition get : t (gmap string Activity) := λ σ, (σ, Returned σ).

(** [activities[name]["participants"].append(email)]: the list stored
    under [name] is mutated in place; every alias of the record sees it. *)
Definition participants_append (name email : string) : t unit :=
  λ σ, (alter (λ a, with_participants a (participants a ++ [email])) name σ,
        Returned tt).

(** The registry after the call, and how the call ended. *)
Definition state_after {A} (m : t A) (σ : gmap string Activity) :
  gmap string Activity := (m σ).1.
Definition outcome {A} (m : t A) (σ : gmap string Activity) : Outcome A :=
  (m σ).2.

End Handler.

#[export] Instance handler_ret : MRet Handler.t := @Handler.ret.
#[export] Instance handler_bind : MBind Handler.t :=
  λ A B k m, Handler.bind m k.

(** ** The seed data (app.py, lines 23-78) *)

Definition activities : gmap string Activity :=
  list_to_map [
    ("Chess Club",
     mkActivity "Learn strategies and compete in chess tournaments"
       "Fridays, 3:30 PM - 5:00 PM" 12
       ["michael@mergington.edu"; "daniel@mergington.edu"]);
    ("Programming Class",
     mkActivity "Learn programming fundamentals and build software projects"
       "Tuesdays and Thursdays, 3:30 PM - 4:30 PM" 20
       ["emma@mergington.edu"; "sophia@mergington.edu"]);
    ("Gym Class",
     mkActivity "Physical education and sports activities"
       "Mondays, Wednesdays, Fridays, 2:00 PM - 3:00 PM" 30
       ["john@mergington.edu"; "olivia@mergington.edu"]);
    ("Soccer Team",
     mkActivity "Competitive soccer team with practices and matches"
       "Mondays, Wednesdays, 4:00 PM - 6:00 PM" 22
       ["liam@mergington.edu"; "ava@mergington.edu"]);
    ("Swimming Club",
     mkActivity "Lap swimming and technique training at the school pool"
       "Tuesdays and Thursdays, 5:00 PM - 6:30 PM" 18
       ["noah@mergington.edu"; "mia@mergington.edu"]);
    ("Art Club",
     mkActivity "Explore drawing, painting, and mixed media projects"
       "Wednesdays, 3:45 PM - 5:00 PM" 16
       ["isabella@mergington.edu"; "lucas@mergington.edu"]);
    ("Drama Club",
     mkActivity "Acting, play production, and stagecraft workshops"
       "Fridays, 4:00 PM - 6:00 PM" 25
       ["charlotte@mergington.edu"; "eli@mergington.edu"]);
    ("Debate Team",
     mkActivity "Prepare for debate tournaments and practice public speaking"
       "Thursdays, 4:00 PM - 5:30 PM" 14
       ["amelia@mergington.edu"; "jack@mergington.edu"]);
    ("Robotics Club",
     mkActivity "Design, build, and program robots for competitions"
       "Mondays and Wednesdays, 3:30 PM - 5:30 PM" 12
       ["henry@mergington.edu"; "zoe@mergington.edu"])
  ].

(** ** The handlers (app.py, lines 86-111) *)

(** [GET /activities]: returns the dictionary, touches nothing. *)
Definition get_activities : Handler.t (gmap string Activity) :=
  Handler.get.

(** [POST /activities/{activity_name}/signup]. *)
Definition signup_for_activity (activity_name email : string) :
  Handler.t Message :=
  registry ← Handler.get;
  (* Validate activity exists *)
  match registry !! activity_name with
  | None => Handler.raise (mkHTTPException 404 "Activity not found")
  | Some activity =>
    (* validate student not already signed up *)
    if bool_decide (email ∈ participants activity) then
      Handler.raise
        (mkHTTPException 400 "Student already signed up for this activity")
    (* validate max participants not exceeded *)
    else if max_participants activity
              <=? Z.of_nat (length (participants activity)) then
      Handler.raise (mkHTTPException 400 "Activity is full")
    else
      (* Add student *)
      Handler.participants_append activity_name email;;
      mret
        (mkMessage ("Signed up " +:+ email +:+ " for " +:+ activity_name))
  end.

(** ** The unregister operation *)

(** Modelled from the spec: the unregister operation.  [src/app.py] has no
    unregister route; only [tests/test_api.py] and
    [tests/test_performance.py] call
    [DELETE /activities/{activity_name}/unregister].  Sections 4.1 and 6 of
    the spec give its two ordered checks, its effect and its responses.
    "Removes exactly one occurrence" is read as Python's [list.remove], which
    drops the first one. *)
Fixpoint remove_one (x : string) (l : list string) : list string :=
  match l with
  | [] => []
  | y :: l' => if decide (x = y) then l' else y :: remove_one x l'
  end.

(** Modelled from the spec: the in-place removal unregister performs on the
    roster stored under [name] (no such statement exists in [src/app.py]). *)
Definition participants_remove (name email : string) : Handler.t unit :=
  λ σ, (alter (λ a, with_participants a (remove_one email (participants a)))
              name σ,
        Returned tt).

(** Modelled from the spec: unregister(activityName, participantId), absent
    from [src/app.py]; checks in the order of section 4.1, responses as in
    section 6. *)
Definition unregister (activity_name email : string) : Handler.t Message :=
  registry ← Handler.get;
  match registry !! activity_name with
  | None => Handler.raise (mkHTTPException 404 "Activity not found")
  | Some activity =>
    if bool_decide (email ∈ participants activity) then
      participants_remove activity_name email;;
      mret
        (mkMessage ("Unregistered " +:+ email +:+ " from " +:+ activity_name))
    else
      Handler.raise
        (mkHTTPException 400 "Student is not registered for this activity")
  end.

(** ** The spec's error taxonomy, as the transport layer renders it *)

Definition NotFound : HTTPException :=
  mkHTTPException 404 "Activity not found".
Definition Conflict_already_registered : HTTPException :=
  mkHTTPException 400 "Student already signed up for this activity".
Definition Conflict_full : HTTPException :=
  mkHTTPException 400 "Activity is full".
Definition Conflict_not_registered : HTTPException :=
  mkHTTPException 400 "Student is not registered for this activity".

(** ** Invariants of the registry *)

Definition capacity_ok (a : Activity) : Prop :=
  Z.of_nat (length (participants a)) ≤ max_participants a.

Definition capacity_invariant (σ : gmap string Activity) : Prop :=
  map_Forall (λ _ a, capacity_ok a) σ.

Definition uniqueness_invariant (σ : gmap string Activity) : Prop :=
  map_Forall (λ _ a, NoDup (participants a)) σ.

#[export] Instance capacity_ok_dec a : Decision (capacity_ok a).
Proof. unfold capacity_ok. apply _. Defined.

#[export] Instance capacity_invariant_dec σ : Decision (capacity_invariant σ).
Proof. unfold capacity_invariant. apply _. Defined.

#[export] Instance uniqueness_invariant_dec σ :
  Decision (uniqueness_invariant σ).
Proof. unfold uniqueness_invariant. apply _. Defined.

(** [s] occurs in [t] as a contiguous piece. *)
Definition occurs_in (s t : string) : Prop :=
  ∃ before after, t = before +:+ s +:+ after.

(** The roster stored under [name], if any. *)
Definition roster (σ : gmap string Activity) (name : string) :
  option (list string) := participants <$> σ !! name.

(** ** Request sequences *)

(** The calls a client can make, and the registry after serving a whole
    sequence of them one after the other, failed calls included. *)
Inductive Request : Type :=
  | ListActivities
  | Register (activity_name email : string)
  | Unregister (activity_name email : string).

Definition serve (r : Request) (σ : gmap string Activity) :
  gmap string Activity :=
  match r with
  | ListActivities => Handler.state_after get_activities σ
  | Register n e => Handler.state_after (signup_for_activity n e) σ
  | Unregister n e => Handler.state_after (unregister n e) σ
  end.

Definition serve_all (rs : list Request) (σ : gmap string Activity) :
  gmap string Activity := foldl (λ σ' r, serve r σ') σ rs.

(** ** Sample registries *)

(** A registry whose only activity is full and already lists ["a@x.edu"]. *)
Definition full_house : gmap string Activity :=
  {[ "Duo" := mkActivity "Two seats" "Never" 2 ["a@x.edu"; "b@x.edu"] ]}.

(** Chess Club with a third participant behind the two seeded ones. *)
Definition chess_of_three : gmap string Activity :=
  <["Chess Club" :=
      mkActivity "Learn strategies and compete in chess tournaments"
        "Fridays, 3:30 PM - 5:00 PM" 12
        ["michael@mergington.edu"; "daniel@mergington.edu"; "zoe@x.edu"]]>
    activities.

(** ** A client posting signups one after the other *)

(** The loops of the test suite, [for email in emails: client.post(...)]
    (tests/test_api.py, lines 100-104, 206-208 and 223-225): each pair is one call of
    [signup_for_activity]; the responses are collected in call order and
    the registry is threaded from call to call. *)
Fixpoint post_signups (calls : list (string * string))
    (σ : gmap string Activity) :
  gmap string Activity * list (Outcome Message) :=
  match calls with
  | [] => (σ, [])
  | (activity_name, email) :: rest =>
    let r := signup_for_activity activity_name email σ in
    let rs := post_signups rest r.1 in
    (rs.1, r.2 :: rs.2)
  end.

(** The emails of the calls for [name] that were answered with success, in
    call order. *)
Fixpoint accepted_emails (name : string) (calls : list (string * string))
    (responses : list (Outcome Message)) : list string :=
  match calls, responses with
  | (n, e) :: calls', Returned _ :: responses' =>
    if decide (n = name) then e :: accepted_emails name calls' responses'
    else accepted_emails name calls' responses'
  | _ :: calls', Raised _ :: responses' =>
    accepted_emails name calls' responses'
  | _, _ => []
  end.

(** ** The test runner (run_tests.py) *)

Module RunTests.

(** The [argparse] namespace of [main]: six [store_true] flags. *)
Record Namespace : Type := mkNamespace {
  quick : bool;
  coverage : bool;
  performance : bool;
  api : bool;
  validation : bool;
  verbose : bool
}.

(** Python's [sub in s] on strings. *)
Fixpoint str_contains (sub s : string) : bool :=
  String.prefix sub s ||
  match s with
  | EmptyString => false
  | String _ s' => str_contains sub s'
  end.

(** Python's [s.replace(old, new)] for a non-empty [old]: the occurrences
    are found from left to right and do not overlap; [skip] counts the
    characters of a matched occurrence still to be dropped. *)
Fixpoint replace_from (old new : string) (skip : nat) (s : string) : string :=
  match s with
  | EmptyString => EmptyString
  | String c s' =>
    match skip with
    | S k => replace_from old new k s'
    | O =>
      if String.prefix old s then
        new +:+ replace_from old new (String.length old - 1) s'
      else String c (replace_from old new 0 s')
    end
  end.

(** With an empty [old], Python puts [new] before every character and at
    the end. *)
Fixpoint replace_empty (new s : string) : string :=
  match s with
  | EmptyString => new
  | String c s' => new +:+ String c (replace_empty new s')
  end.

Definition str_replace (s old new : string) : string :=
  match old with
  | EmptyString => replace_empty new s
  | String _ _ => replace_from old new 0 s
  end.

(** ['=' * 60]. *)
Definition rule : string :=
  "============================================================".

(** Lines 46-70 of [main]: the pytest command and its description. *)
Definition pytest_command (args : Namespace) : string * string :=
  (* Base pytest command *)
  let pytest_cmd := "python -m pytest tests/" in
  let pytest_cmd :=
    if verbose args then pytest_cmd +:+ " -v" else pytest_cmd in
  (* Determine which tests to run *)
  let '(pytest_cmd, description) :=
    if api args then
      (str_replace pytest_cmd "tests/" "tests/test_api.py",
       "Running API Tests")
    else if validation args then
      (str_replace pytest_cmd "tests/" "tests/test_data_validation.py",
       "Running Data Validation Tests")
    else if performance args then
      (str_replace pytest_cmd "tests/" "tests/test_performance.py",
       "Running Performance Tests")
    else (pytest_cmd, "Running All Tests") in
  (* Add coverage if requested *)
  if coverage args && negb (quick args) then
    (pytest_cmd +:+ " --cov=src --cov-report=html --cov-report=term-missing",
     description +:+ " with Coverage")
  else if negb (quick args)
          && negb (api args || validation args || performance args) then
    (pytest_cmd +:+ " --cov=src --cov-report=term",
     description +:+ " with Coverage")
  else (pytest_cmd, description).

(** The parts the command is made of, for stating what [pytest_command]
    builds: the test path selected by the flags, and whether coverage
    options are added. *)
Definition target (args : Namespace) : string :=
  if api args then "tests/test_api.py"
  else if validation args then "tests/test_data_validation.py"
  else if performance args then "tests/test_performance.py"
  else "tests/".

Definition base_description (args : Namespace) : string :=
  if api args then "Running API Tests"
  else if validation args then "Running Data Validation Tests"
  else if performance args then "Running Performance Tests"
  else "Running All Tests".

Definition coverage_options (args : Namespace) : string :=
  if quick args then ""
  else if coverage args then
    " --cov=src --cov-report=html --cov-report=term-missing"
  else if api args || validation args || performance args then ""
  else " --cov=src --cov-report=term".

Definition with_coverage (args : Namespace) : bool :=
  negb (quick args)
  && (coverage args || negb (api args || validation args || performance args)).

Section Shell.

(** [subprocess.run(command, shell=True, check=True, ...)]: the return code
    of the shell for a command line; with [check=True] a non-zero code
    raises [CalledProcessError].  The child's own output goes to the
    terminal directly and is not part of what the script prints. *)
Variable shell : string → Z.

(** [run_command]: the lines printed, and whether the command succeeded. *)
Definition run_command (command description : string) : list string * bool :=
  let banner :=
    [String "010"%char rule; "🧪 " +:+ description; rule] in
  let returncode := shell command in
  if decide (returncode = 0) then
    (banner ++ ["✅ " +:+ description +:+ " completed successfully!"], true)
  else
    (banner ++ ["❌ " +:+ description +:+ " failed with exit code "
                +:+ pretty returncode],
     false).

(** [main] on parsed arguments: the lines printed and the exit status of
    the script ([sys.exit(1)] when the tests failed, 0 otherwise). *)
Definition main (args : Namespace) : list string * Z :=
  let '(pytest_cmd, description) := pytest_command args in
  (* Run the tests *)
  let '(printed, success) := run_command pytest_cmd description in
  if success then
    let printed :=
      printed ++ [String "010"%char "🎉 All tests passed successfully!"] in
    if str_contains "--cov=" pytest_cmd then
      (printed ++ ["📊 Coverage report generated in htmlcov/index.html"], 0)
    else (printed, 0)
  else
    (printed
     ++ [String "010"
           "💥 Some tests failed. Check the output above for details."],
     1).

End Shell.

End RunTests.

(** ** Facts about lists and maps used below *)

Section RemoveOne.
Implicit Types (x y : string) (l : list string).

Lemma remove_one_split x l :
  x ∈ l →
  ∃ l1 l2, l = l1 ++ (x :: l2) ∧ (x ∉ l1) ∧ remove_one x l = l1 ++ l2.
Proof.
  induction l as [|y l IH]; intros Hin.
  - by apply elem_of_nil in Hin.
  - simpl. destruct (decide (x = y)) as [->|Hne].
    + exists [], l. split_and!; [done | apply not_elem_of_nil | done].
    + apply elem_of_cons in Hin as [?|Hin]; [done|].
      destruct (IH Hin) as (l1 & l2 & -> & Hl1 & ->).
      exists (y :: l1), l2. split_and!; [done | | done].
      rewrite not_elem_of_cons. done.
Qed.

Lemma remove_one_absent x l : x ∉ l → remove_one x l = l.
Proof.
  induction l as [|y l IH]; [done|].
  rewrite not_elem_of_cons. intros [Hne Hl]. simpl.
  rewrite decide_False by done. by rewrite IH.
Qed.

Lemma remove_one_snoc x l : x ∉ l → remove_one x (l ++ [x]) = l.
Proof.
  induction l as [|y l IH]; simpl.
  - intros _. by rewrite decide_True.
  - rewrite not_elem_of_cons. intros [Hne Hl].
    rewrite decide_False by done. by rewrite IH.
Qed.

Lemma remove_one_elem_of x y l : y ∈ remove_one x l → y ∈ l.
Proof.
  induction l as [|z l IH]; simpl; [done|].
  destruct (decide (x = z)); rewrite !elem_of_cons; [tauto|].
  intros [?|?]; [by left | right; auto].
Qed.

Lemma remove_one_NoDup x l : NoDup l → NoDup (remove_one x l).
Proof.
  induction 1 as [|y l Hy Hnd IH]; simpl; [constructor|].
  destruct (decide (x = y)); [done|].
  constructor; [|done]. intros Hin. by apply Hy, (remove_one_elem_of x).
Qed.

Lemma remove_one_length_le x l :
  (length (remove_one x l) ≤ length l)%nat.
Proof.
  induction l as [|y l IH]; simpl; [done|].
  destruct (decide (x = y)); simpl; lia.
Qed.

Lemma remove_one_gone x l : NoDup l → x ∉ remove_one x l.
Proof.
  induction 1 as [|y l Hy Hnd IH]; simpl; [apply not_elem_of_nil|].
  destruct (decide (x = y)) as [->|Hne]; [done|].
  by rewrite not_elem_of_cons.
Qed.
End RemoveOne.

Section StringFacts.
Implicit Types (s t u : string).

Lemma string_app_cons c s t : String c s +:+ t = String c (s +:+ t).
Proof. reflexivity. Qed.

Lemma string_app_empty_r s : s +:+ "" = s.
Proof.
  induction s as [|c s IH]; [done|]. by rewrite string_app_cons, IH.
Qed.

Lemma string_app_assoc s t u : (s +:+ t) +:+ u = s +:+ t +:+ u.
Proof.
  induction s as [|c s IH]; [done|]. by rewrite !string_app_cons, IH.
Qed.
End StringFacts.

Section RegistryFacts.
Implicit Types (σ : gmap string Activity) (a : Activity).

Lemma alter_present (f : Activity → Activity) name σ a :
  σ !! name = Some a → alter f name σ = <[name := f a]> σ.
Proof.
  intros Hlk. apply map_eq. intros k.
  rewrite lookup_alter, lookup_insert.
  destruct (decide (name = k)) as [<-|]; [by rewrite Hlk | done].
Qed.

Lemma with_participants_same a : with_participants a (participants a) = a.
Proof. by destruct a. Qed.

Lemma map_Forall_alter_value (P : Activity → Prop) f name σ :
  map_Forall (λ _, P) σ →
  (∀ a, σ !! name = Some a → P a → P (f a)) →
  map_Forall (λ _, P) (alter f name σ).
Proof.
  intros Hall Hf k b. rewrite lookup_alter.
  destruct (decide (name = k)) as [<-|].
  - destruct (σ !! name) as [a|] eqn:Hlk; [|done].
    intros [= <-]. apply Hf; [done|]. by apply (Hall name).
  - apply Hall.
Qed.

(** The handlers, case by case on the registry they start from. *)
Lemma signup_for_activity_cases name email σ :
  signup_for_activity name email σ =
  match σ !! name with
  | None => (σ, Raised NotFound)
  | Some a =>
    if bool_decide (email ∈ participants a) then
      (σ, Raised Conflict_already_registered)
    else if max_participants a <=? Z.of_nat (length (participants a)) then
      (σ, Raised Conflict_full)
    else
      (alter (λ b, with_participants b (participants b ++ [email])) name σ,
       Returned (mkMessage ("Signed up " +:+ email +:+ " for " +:+ name)))
  end.
Proof.
  unfold signup_for_activity, mbind, handler_bind, Handler.bind, Handler.get.
  destruct (σ !! name) as [a|]; [|done].
  case_bool_decide; [done|].
  destruct (_ <=? _); done.
Qed.

Lemma signup_duplicate_raises σ name email a :
  σ !! name = Some a → email ∈ participants a →
  Handler.outcome (signup_for_activity name email) σ
  = Raised Conflict_already_registered.
Proof.
  intros Hlk Hin. unfold Handler.outcome.
  by rewrite signup_for_activity_cases, Hlk, bool_decide_eq_true_2.
Qed.

Lemma unregister_cases name email σ :
  unregister name email σ =
  match σ !! name with
  | None => (σ, Raised NotFound)
  | Some a =>
    if bool_decide (email ∈ participants a) then
      (alter (λ b, with_participants b (remove_one email (participants b)))
             name σ,
       Returned (mkMessage ("Unregistered " +:+ email +:+ " from " +:+ name)))
    else (σ, Raised Conflict_not_registered)
  end.
Proof.
  unfold unregister, mbind, handler_bind, Handler.bind, Handler.get.
  destruct (σ !! name) as [a|]; [|done].
  case_bool_decide; done.
Qed.
End RegistryFacts.

(** ** unregister *)

(** C1: unregister(activityName, participantId) fails with NotFound when the
    activity is not in the registry, fails with Conflict (not registered)
    when the participant is not on that activity's roster, and otherwise
    succeeds and removes exactly one occurrence of the participant: the
    entries before it and the entries after it stay, in their order. *)
Theorem unregister_spec (σ : gmap string Activity) (name email : string) :
  (σ !! name = None →
   Handler.outcome (unregister name email) σ = Raised NotFound) ∧
  (∀ a, σ !! name = Some a → email ∉ participants a →
   Handler.outcome (unregister name email) σ
   = Raised Conflict_not_registered) ∧
  (∀ a, σ !! name = Some a → email ∈ participants a →
   ∃ before after,
     participants a = before ++ (email :: after) ∧
     roster (Handler.state_after (unregister name email) σ) name
     = Some (before ++ after) ∧
     Handler.outcome (unregister name email) σ
     = Returned
         (mkMessage ("Unregistered " +:+ email +:+ " from " +:+ name))).
Proof.
  unfold Handler.outcome, Handler.state_after, roster.
  rewrite unregister_cases. split_and!.
  - by intros ->.
  - intros a -> Hnot. by rewrite bool_decide_eq_false_2.
  - intros a Hlk Hin. rewrite Hlk, bool_decide_eq_true_2 by done. simpl.
    destruct (remove_one_split _ _ Hin) as (l1 & l2 & Hps & _ & Hrm).
    exists l1, l2. split_and!; [done | | done].
    rewrite lookup_alter, decide_True, Hlk by done. simpl. by rewrite Hrm.
Qed.

Lemma unregister_spec_witness :
  Handler.outcome (unregister "Nonexistent Club" "test@mergington.edu")
    activities = Raised NotFound ∧
  Handler.outcome (unregister "Chess Club" "absent@x.edu") activities
  = Raised Conflict_not_registered ∧
  ∃ before after,
    ["michael@mergington.edu"; "daniel@mergington.edu"; "zoe@x.edu"]
    = before ++ ("daniel@mergington.edu" :: after) ∧
    roster
      (Handler.state_after (unregister "Chess Club" "daniel@mergington.edu")
         chess_of_three)
      "Chess Club"
    = Some (before ++ after) ∧
    Handler.outcome (unregister "Chess Club" "daniel@mergington.edu")
      chess_of_three
    = Returned
        (mkMessage "Unregistered daniel@mergington.edu from Chess Club").
Proof.
  split_and!.
  - apply (proj1 (unregister_spec activities "Nonexistent Club"
                    "test@mergington.edu")).
    reflexivity.
  - apply (proj1 (proj2 (unregister_spec activities "Chess Club"
                           "absent@x.edu"))
             (mkActivity "Learn strategies and compete in chess tournaments"
                "Fridays, 3:30 PM - 5:00 PM" 12
                ["michael@mergington.edu"; "daniel@mergington.edu"])).
    + reflexivity.
    + compute_done.
  - apply (proj2 (proj2 (unregister_spec chess_of_three "Chess Club"
                           "daniel@mergington.edu"))
             (mkActivity "Learn strategies and compete in chess tournaments"
                "Fridays, 3:30 PM - 5:00 PM" 12
                ["michael@mergington.edu"; "daniel@mergington.edu";
                 "zoe@x.edu"])).
    + reflexivity.
    + compute_done.
Defined.

(** ** signup_for_activity: the three ordered checks *)

(** C2: register checks existence, then duplicate, then capacity, and
    reports the first check that fails: NotFound for an unknown activity
    name, Conflict (already registered) for a participant already on the
    roster whatever the capacity, Conflict (full) when the roster has
    reached max_participants; otherwise it succeeds. *)
Theorem signup_check_order (σ : gmap string Activity) (name email : string) :
  (σ !! name = None →
   Handler.outcome (signup_for_activity name email) σ = Raised NotFound) ∧
  (∀ a, σ !! name = Some a → email ∈ participants a →
   Handler.outcome (signup_for_activity name email) σ
   = Raised Conflict_already_registered) ∧
  (∀ a, σ !! name = Some a → email ∉ participants a →
   max_participants a ≤ Z.of_nat (length (participants a)) →
   Handler.outcome (signup_for_activity name email) σ = Raised Conflict_full) ∧
  (∀ a, σ !! name = Some a → email ∉ participants a →
   Z.of_nat (length (participants a)) < max_participants a →
   ∃ m, Handler.outcome (signup_for_activity name email) σ = Returned m).
Proof.
  unfold Handler.outcome. rewrite signup_for_activity_cases. split_and!.
  - by intros ->.
  - intros a -> Hin. by rewrite bool_decide_eq_true_2.
  - intros a -> Hnot Hfull. rewrite bool_decide_eq_false_2 by done.
    by rewrite (proj2 (Z.leb_le _ _) Hfull).
  - intros a -> Hnot Hfree. rewrite bool_decide_eq_false_2 by done.
    rewrite (proj2 (Z.leb_gt _ _) Hfree). by eexists.
Qed.

Lemma signup_check_order_witness :
  Handler.outcome (signup_for_activity "Nonexistent Club" "a@x.edu")
    full_house = Raised NotFound ∧
  Handler.outcome (signup_for_activity "Duo" "a@x.edu") full_house
  = Raised Conflict_already_registered ∧
  Handler.outcome (signup_for_activity "Duo" "c@x.edu") full_house
  = Raised Conflict_full ∧
  ∃ m, Handler.outcome (signup_for_activity "Chess Club" "new@x.edu")
         activities = Returned m.
Proof.
  split_and!.
  - apply (proj1 (signup_check_order full_house "Nonexistent Club" "a@x.edu")).
    reflexivity.
  - apply (proj1 (proj2 (signup_check_order full_house "Duo" "a@x.edu"))
             (mkActivity "Two seats" "Never" 2 ["a@x.edu"; "b@x.edu"])).
    + reflexivity.
    + compute_done.
  - apply (proj1 (proj2 (proj2
                           (signup_check_order full_house "Duo" "c@x.edu")))
             (mkActivity "Two seats" "Never" 2 ["a@x.edu"; "b@x.edu"])).
    + reflexivity.
    + compute_done.
    + simpl. lia.
  - apply (proj2 (proj2 (proj2
                           (signup_check_order activities "Chess Club"
                              "new@x.edu")))
             (mkActivity "Learn strategies and compete in chess tournaments"
                "Fridays, 3:30 PM - 5:00 PM" 12
                ["michael@mergington.edu"; "daniel@mergington.edu"])).
    + reflexivity.
    + compute_done.
    + simpl. lia.
Defined.

(** C9: register performs no format validation: on an existing activity
    with a free seat it accepts every string that is not yet on the roster,
    the empty string included, and puts it on the roster. *)
Theorem signup_accepts_any_string
    (σ : gmap string Activity) (name email : string) (a : Activity) :
  σ !! name = Some a →
  email ∉ participants a →
  Z.of_nat (length (participants a)) < max_participants a →
  ∃ m, Handler.outcome (signup_for_activity name email) σ = Returned m ∧
       roster (Handler.state_after (signup_for_activity name email) σ) name
       = Some (participants a ++ [email]).
Proof.
  intros Hlk Hnot Hfree.
  unfold Handler.outcome, Handler.state_after, roster.
  rewrite signup_for_activity_cases, Hlk.
  rewrite bool_decide_eq_false_2 by done.
  rewrite (proj2 (Z.leb_gt _ _) Hfree). simpl.
  eexists. split; [done|].
  by rewrite lookup_alter, decide_True, Hlk.
Qed.

Lemma signup_accepts_any_string_witness :
  ∃ m, Handler.outcome (signup_for_activity "Chess Club" "") activities
       = Returned m ∧
       roster (Handler.state_after (signup_for_activity "Chess Club" "")
                 activities) "Chess Club"
       = Some ["michael@mergington.edu"; "daniel@mergington.edu"; ""].
Proof.
  apply (signup_accepts_any_string activities "Chess Club" ""
           (mkActivity "Learn strategies and compete in chess tournaments"
              "Fridays, 3:30 PM - 5:00 PM" 12
              ["michael@mergington.edu"; "daniel@mergington.edu"])).
  - reflexivity.
  - compute_done.
  - simpl. lia.
Defined.

(** ** signup_for_activity: effect on success, no effect on failure *)

Section SignupEffect.
Variables (σ : gmap string Activity) (name email : string).

(** What a returning signup must have seen and done. *)
Lemma signup_returned_inv m :
  Handler.outcome (signup_for_activity name email) σ = Returned m →
  ∃ a, σ !! name = Some a ∧ (email ∉ participants a) ∧
       Z.of_nat (length (participants a)) < max_participants a ∧
       Handler.state_after (signup_for_activity name email) σ
       = <[name := with_participants a (participants a ++ [email])]> σ ∧
       m = mkMessage ("Signed up " +:+ email +:+ " for " +:+ name).
Proof.
  unfold Handler.outcome, Handler.state_after.
  rewrite signup_for_activity_cases.
  destruct (σ !! name) as [a|] eqn:Hlk; [|done].
  case_bool_decide as Hin; [done|].
  destruct (_ <=? _) eqn:Hcap; [done|]. simpl. intros [= <-].
  exists a. split_and!; [done | done | by apply Z.leb_gt | | done].
  exact (alter_present
           (λ b, with_participants b (participants b ++ [email]))
           name σ a Hlk).
Qed.

Lemma signup_raised_inv e :
  Handler.outcome (signup_for_activity name email) σ = Raised e →
  Handler.state_after (signup_for_activity name email) σ = σ.
Proof.
  unfold Handler.outcome, Handler.state_after.
  rewrite signup_for_activity_cases.
  destruct (σ !! name) as [a|]; [|done].
  case_bool_decide; [done|]. by destruct (_ <=? _).
Qed.

Lemma unregister_raised_inv e :
  Handler.outcome (unregister name email) σ = Raised e →
  Handler.state_after (unregister name email) σ = σ.
Proof.
  unfold Handler.outcome, Handler.state_after. rewrite unregister_cases.
  destruct (σ !! name) as [a|]; [|done]. by case_bool_decide.
Qed.
End SignupEffect.

(** C5: a successful register appends the participant to the end of the
    activity's roster and returns a confirmation in which both the
    participant id and the activity name occur. *)
Theorem signup_success_appends
    (σ : gmap string Activity) (name email : string) (m : Message) :
  Handler.outcome (signup_for_activity name email) σ = Returned m →
  ∃ a, σ !! name = Some a ∧
       roster (Handler.state_after (signup_for_activity name email) σ) name
       = Some (participants a ++ [email]) ∧
       message m = "Signed up " +:+ email +:+ " for " +:+ name ∧
       occurs_in email (message m) ∧ occurs_in name (message m).
Proof.
  intros Hret.
  destruct (signup_returned_inv _ _ _ _ Hret) as (a & Hlk & _ & _ & -> & ->).
  exists a. unfold roster. rewrite lookup_insert_eq. simpl.
  split_and!; [done | done | done | |].
  - by exists "Signed up ", (" for " +:+ name).
  - exists ("Signed up " +:+ email +:+ " for "), "".
    by rewrite string_app_empty_r, !string_app_assoc.
Qed.

Lemma signup_success_appends_witness :
  ∃ a, activities !! "Chess Club" = Some a ∧
       roster (Handler.state_after
                 (signup_for_activity "Chess Club" "new@x.edu") activities)
         "Chess Club"
       = Some (participants a ++ ["new@x.edu"]) ∧
       "Signed up new@x.edu for Chess Club"
       = "Signed up " +:+ "new@x.edu" +:+ " for " +:+ "Chess Club" ∧
       occurs_in "new@x.edu" "Signed up new@x.edu for Chess Club" ∧
       occurs_in "Chess Club" "Signed up new@x.edu for Chess Club".
Proof.
  apply (signup_success_appends activities "Chess Club" "new@x.edu"
           (mkMessage "Signed up new@x.edu for Chess Club")).
  reflexivity.
Defined.

(** C6: a register or unregister call that fails, with whatever error,
    leaves the whole registry equal to what it was before the call. *)
Theorem failure_leaves_registry_unchanged
    (σ : gmap string Activity) (name email : string) (e : HTTPException) :
  (Handler.outcome (signup_for_activity name email) σ = Raised e →
   Handler.state_after (signup_for_activity name email) σ = σ) ∧
  (Handler.outcome (unregister name email) σ = Raised e →
   Handler.state_after (unregister name email) σ = σ).
Proof.
  split; [apply signup_raised_inv | apply unregister_raised_inv].
Qed.

Lemma failure_leaves_registry_unchanged_witness :
  Handler.state_after
    (signup_for_activity "Chess Club" "michael@mergington.edu") activities
  = activities ∧
  Handler.state_after (unregister "Chess Club" "absent@x.edu") activities
  = activities.
Proof.
  split.
  - apply (proj1 (failure_leaves_registry_unchanged activities "Chess Club"
                    "michael@mergington.edu" Conflict_already_registered)).
    reflexivity.
  - apply (proj2 (failure_leaves_registry_unchanged activities "Chess Club"
                    "absent@x.edu" Conflict_not_registered)).
    reflexivity.
Defined.

(** C8: when register(a, p) succeeds, the same call repeated at once fails
    with Conflict (already registered) and the registry after the second
    call is the registry after the first. *)
Theorem signup_twice
    (σ : gmap string Activity) (name email : string) (m : Message) :
  Handler.outcome (signup_for_activity name email) σ = Returned m →
  let σ1 := Handler.state_after (signup_for_activity name email) σ in
  Handler.outcome (signup_for_activity name email) σ1
  = Raised Conflict_already_registered ∧
  Handler.state_after (signup_for_activity name email) σ1 = σ1.
Proof.
  intros Hret σ1.
  destruct (signup_returned_inv _ _ _ _ Hret) as (a & Hlk & _ & _ & Hσ1 & _).
  assert (Hdup : Handler.outcome (signup_for_activity name email) σ1
                 = Raised Conflict_already_registered).
  { apply (signup_duplicate_raises σ1 name email
             (with_participants a (participants a ++ [email]))).
    - subst σ1. rewrite Hσ1. apply lookup_insert_eq.
    - simpl. apply elem_of_app. right. apply list_elem_of_singleton. done. }
  split; [done|]. by eapply signup_raised_inv.
Qed.

Lemma signup_twice_witness :
  let σ1 :=
    Handler.state_after (signup_for_activity "Chess Club" "dup@x.edu")
      activities in
  Handler.outcome (signup_for_activity "Chess Club" "dup@x.edu") σ1
  = Raised Conflict_already_registered ∧
  Handler.state_after (signup_for_activity "Chess Club" "dup@x.edu") σ1 = σ1.
Proof.
  apply (signup_twice activities "Chess Club" "dup@x.edu"
           (mkMessage "Signed up dup@x.edu for Chess Club")).
  reflexivity.
Defined.

(** C10: register(a, p), returning or raising, changes at most the roster
    of activity a: the registry keeps its set of names, every other
    activity keeps its whole record, and a keeps its description, schedule
    and max_participants. *)
Theorem signup_frame (σ : gmap string Activity) (name email : string) :
  let σ' := Handler.state_after (signup_for_activity name email) σ in
  dom σ' = dom σ ∧
  (∀ other, other ≠ name → σ' !! other = σ !! other) ∧
  (∀ a, σ !! name = Some a →
   ∃ a', σ' !! name = Some a' ∧
         description a' = description a ∧
         schedule a' = schedule a ∧
         max_participants a' = max_participants a).
Proof.
  intros σ'.
  destruct (Handler.outcome (signup_for_activity name email) σ)
    as [e|m] eqn:Hout.
  - subst σ'. rewrite (signup_raised_inv _ _ _ _ Hout).
    split_and!; [done | done | eauto].
  - destruct (signup_returned_inv _ _ _ _ Hout) as (a & Hlk & _ & _ & Hσ' & _).
    subst σ'. rewrite Hσ'. split_and!.
    + apply dom_insert_lookup_L. by rewrite Hlk.
    + intros other Hne. by rewrite lookup_insert_ne.
    + intros a0 Ha0. rewrite Hlk in Ha0. injection Ha0 as <-.
      rewrite lookup_insert_eq. by eexists.
Qed.

(** ** register followed by unregister *)

(** C7: when register(a, p) succeeds and unregister(a, p) follows at once,
    the unregister call succeeds and activity a's roster is again the
    sequence it was before the register call; in fact the whole registry
    is.  No assumption on the starting registry is needed. *)
Theorem signup_then_unregister
    (σ : gmap string Activity) (name email : string) (m : Message) :
  Handler.outcome (signup_for_activity name email) σ = Returned m →
  let σ1 := Handler.state_after (signup_for_activity name email) σ in
  (∃ m', Handler.outcome (unregister name email) σ1 = Returned m') ∧
  roster (Handler.state_after (unregister name email) σ1) name
  = roster σ name ∧
  Handler.state_after (unregister name email) σ1 = σ.
Proof.
  intros Hret σ1.
  destruct (signup_returned_inv _ _ _ _ Hret) as (a & Hlk & Hnot & _ & Hσ1 & _).
  assert (Hback : Handler.state_after (unregister name email) σ1 = σ
                  ∧ ∃ m', Handler.outcome (unregister name email) σ1
                          = Returned m').
  { unfold Handler.state_after, Handler.outcome.
    rewrite unregister_cases. subst σ1. rewrite Hσ1, lookup_insert_eq. simpl.
    rewrite bool_decide_eq_true_2
      by (apply elem_of_app; right; by apply list_elem_of_singleton).
    simpl. split; [|by eexists].
    rewrite (alter_present _ _ _ _ (lookup_insert_eq _ _ _)).
    rewrite insert_insert_eq. apply insert_id. rewrite Hlk. f_equal.
    change (participants (with_participants a (participants a ++ [email])))
      with (participants a ++ [email]).
    rewrite remove_one_snoc by done. by destruct a. }
  destruct Hback as [Hσ Hm']. split_and!; [done | by rewrite Hσ | done].
Qed.

Lemma signup_then_unregister_witness :
  let σ1 :=
    Handler.state_after (signup_for_activity "Programming Class"
                           "workflow@mergington.edu") activities in
  (∃ m', Handler.outcome
           (unregister "Programming Class" "workflow@mergington.edu") σ1
         = Returned m') ∧
  roster (Handler.state_after
            (unregister "Programming Class" "workflow@mergington.edu") σ1)
    "Programming Class"
  = roster activities "Programming Class" ∧
  Handler.state_after
    (unregister "Programming Class" "workflow@mergington.edu") σ1
  = activities.
Proof.
  apply (signup_then_unregister activities "Programming Class"
           "workflow@mergington.edu"
           (mkMessage
              "Signed up workflow@mergington.edu for Programming Class")).
  reflexivity.
Defined.

(** ** The registry invariants *)

Section Preservation.
Variables (σ : gmap string Activity) (name email : string).

Lemma signup_preserves_capacity :
  capacity_invariant σ →
  capacity_invariant
    (Handler.state_after (signup_for_activity name email) σ).
Proof.
  intros Hinv. unfold Handler.state_after.
  rewrite signup_for_activity_cases.
  destruct (σ !! name) as [a|] eqn:Hlk; [|done].
  case_bool_decide; [done|].
  destruct (_ <=? _) eqn:Hcap; [done|]. simpl.
  apply map_Forall_alter_value; [done|].
  intros b Hb _. rewrite Hlk in Hb. injection Hb as <-.
  apply Z.leb_gt in Hcap. unfold capacity_ok. simpl.
  rewrite length_app. simpl. lia.
Qed.

Lemma unregister_preserves_capacity :
  capacity_invariant σ →
  capacity_invariant (Handler.state_after (unregister name email) σ).
Proof.
  intros Hinv. unfold Handler.state_after. rewrite unregister_cases.
  destruct (σ !! name) as [a|] eqn:Hlk; [|done].
  case_bool_decide; [|done]. simpl.
  apply map_Forall_alter_value; [done|].
  intros b _ Hb. unfold capacity_ok in *. simpl.
  pose proof (remove_one_length_le email (participants b)). lia.
Qed.

Lemma signup_preserves_uniqueness :
  uniqueness_invariant σ →
  uniqueness_invariant
    (Handler.state_after (signup_for_activity name email) σ).
Proof.
  intros Hinv. unfold Handler.state_after.
  rewrite signup_for_activity_cases.
  destruct (σ !! name) as [a|] eqn:Hlk; [|done].
  case_bool_decide as Hin; [done|].
  destruct (_ <=? _); [done|]. simpl.
  apply (map_Forall_alter_value (λ a, NoDup (participants a))); [done|].
  intros b Hb Hnd. rewrite Hlk in Hb. injection Hb as <-. simpl.
  apply NoDup_app. split_and!; [done | | apply NoDup_singleton].
  intros x Hx Hx'. apply list_elem_of_singleton in Hx' as ->. done.
Qed.

Lemma unregister_preserves_uniqueness :
  uniqueness_invariant σ →
  uniqueness_invariant (Handler.state_after (unregister name email) σ).
Proof.
  intros Hinv. unfold Handler.state_after. rewrite unregister_cases.
  destruct (σ !! name) as [a|] eqn:Hlk; [|done].
  case_bool_decide; [|done]. simpl.
  apply (map_Forall_alter_value (λ a, NoDup (participants a))); [done|].
  intros b _ Hnd. simpl. by apply remove_one_NoDup.
Qed.
End Preservation.

Lemma activities_capacity : capacity_invariant activities.
Proof. compute_done. Qed.

Lemma activities_uniqueness : uniqueness_invariant activities.
Proof. compute_done. Qed.

(** Both invariants hold after any sequence of calls on the seeded
    registry. *)
Lemma invariants_at_all_times (rs : list Request) :
  capacity_invariant (serve_all rs activities) ∧
  uniqueness_invariant (serve_all rs activities).
Proof.
  unfold serve_all.
  induction rs as [|r rs [IHc IHu]] using rev_ind.
  - split; [apply activities_capacity | apply activities_uniqueness].
  - rewrite foldl_app. simpl. destruct r as [|n e|n e]; simpl.
    + done.
    + split; [by apply signup_preserves_capacity
             | by apply signup_preserves_uniqueness].
    + split; [by apply unregister_preserves_capacity
             | by apply unregister_preserves_uniqueness].
Qed.

(** C3: every activity of the seeded registry has at most max_participants
    participants, and list, register and unregister each keep that true of
    every activity, whether the call returns or raises. *)
Theorem capacity_invariant_holds :
  capacity_invariant activities ∧
  ∀ σ : gmap string Activity, capacity_invariant σ →
    capacity_invariant (Handler.state_after get_activities σ) ∧
    ∀ name email : string,
      capacity_invariant
        (Handler.state_after (signup_for_activity name email) σ) ∧
      capacity_invariant (Handler.state_after (unregister name email) σ).
Proof.
  split; [apply activities_capacity|].
  intros σ Hinv. split; [done|]. intros name email. split.
  - by apply signup_preserves_capacity.
  - by apply unregister_preserves_capacity.
Qed.

Lemma capacity_invariant_holds_witness :
  capacity_invariant
    (Handler.state_after (signup_for_activity "Chess Club" "new@x.edu")
       activities) ∧
  capacity_invariant
    (Handler.state_after (unregister "Chess Club" "daniel@mergington.edu")
       activities).
Proof.
  destruct capacity_invariant_holds as [Hseed Hkeep].
  destruct (Hkeep activities Hseed) as [_ Hcalls].
  split.
  - exact (proj1 (Hcalls "Chess Club" "new@x.edu")).
  - exact (proj2 (Hcalls "Chess Club" "daniel@mergington.edu")).
Defined.

(** C4: no roster of the seeded registry lists a participant twice, and
    list, register and unregister each keep that true of every activity. *)
Theorem uniqueness_invariant_holds :
  uniqueness_invariant activities ∧
  ∀ σ : gmap string Activity, uniqueness_invariant σ →
    uniqueness_invariant (Handler.state_after get_activities σ) ∧
    ∀ name email : string,
      uniqueness_invariant
        (Handler.state_after (signup_for_activity name email) σ) ∧
      uniqueness_invariant (Handler.state_after (unregister name email) σ).
Proof.
  split; [apply activities_uniqueness|].
  intros σ Hinv. split; [done|]. intros name email. split.
  - by apply signup_preserves_uniqueness.
  - by apply unregister_preserves_uniqueness.
Qed.

Lemma uniqueness_invariant_holds_witness :
  uniqueness_invariant
    (Handler.state_after (signup_for_activity "Chess Club" "new@x.edu")
       activities) ∧
  uniqueness_invariant
    (Handler.state_after (unregister "Chess Club" "daniel@mergington.edu")
       activities).
Proof.
  destruct uniqueness_invariant_holds as [Hseed Hkeep].
  destruct (Hkeep activities Hseed) as [_ Hcalls].
  split.
  - exact (proj1 (Hcalls "Chess Club" "new@x.edu")).
  - exact (proj2 (Hcalls "Chess Club" "daniel@mergington.edu")).
Defined.

(** ** The scenarios of the test suite, run on the seeded registry *)

Example scenario_signup_success :
  roster (serve (Register "Chess Club" "new@x.edu") activities) "Chess Club"
  = Some ["michael@mergington.edu"; "daniel@mergington.edu"; "new@x.edu"].
Proof. reflexivity. Qed.

Example scenario_signup_unknown_activity :
  signup_for_activity "Nonexistent Club" "a@x.edu" activities
  = (activities, Raised NotFound).
Proof. reflexivity. Qed.

Example scenario_signup_duplicate :
  signup_for_activity "Chess Club" "michael@mergington.edu" activities
  = (activities, Raised Conflict_already_registered).
Proof. reflexivity. Qed.

Example scenario_signup_full :
  signup_for_activity "Duo" "overflow@x.edu" full_house
  = (full_house, Raised Conflict_full).
Proof. reflexivity. Qed.

Example scenario_unregister_middle :
  roster (serve (Unregister "Chess Club" "daniel@mergington.edu")
            chess_of_three) "Chess Club"
  = Some ["michael@mergington.edu"; "zoe@x.edu"].
Proof. reflexivity. Qed.

Example scenario_empty_email :
  Handler.outcome (signup_for_activity "Chess Club" "") activities
  = Returned (mkMessage "Signed up  for Chess Club").
Proof. reflexivity. Qed.

(** ** Sequences of signups *)

Section SignupLocality.
Implicit Types (σ : gmap string Activity) (n e : string).

Lemma signup_state_lookup_ne n e σ (k : string) :
  k ≠ n → (signup_for_activity n e σ).1 !! k = σ !! k.
Proof.
  intros Hne. rewrite signup_for_activity_cases.
  destruct (σ !! n) as [a|]; [|done].
  case_bool_decide; [done|]. destruct (_ <=? _); [done|]. simpl.
  by rewrite lookup_alter_ne.
Qed.

Lemma signup_dom n e σ : dom (signup_for_activity n e σ).1 = dom σ.
Proof.
  rewrite signup_for_activity_cases.
  destruct (σ !! n) as [a|]; [|done].
  case_bool_decide; [done|]. destruct (_ <=? _); [done|]. simpl.
  apply dom_alter_L.
Qed.

(** What a signup answers, and whether it appends, is decided by the record
    stored under the activity name alone. *)
Lemma signup_depends_on_lookup n e σ σ' :
  σ !! n = σ' !! n →
  (signup_for_activity n e σ).2 = (signup_for_activity n e σ').2 ∧
  (((signup_for_activity n e σ).1 = σ ∧ (signup_for_activity n e σ').1 = σ') ∨
   ((signup_for_activity n e σ).1
    = alter (λ b, with_participants b (participants b ++ [e])) n σ ∧
    (signup_for_activity n e σ').1
    = alter (λ b, with_participants b (participants b ++ [e])) n σ')).
Proof.
  intros Heq. rewrite !signup_for_activity_cases, <- Heq.
  destruct (σ !! n) as [a|]; [|by auto].
  case_bool_decide; [by auto|]. destruct (_ <=? _); by auto.
Qed.

Lemma alter_alter_ne (f g : Activity → Activity) n1 n2 σ :
  n1 ≠ n2 → alter f n1 (alter g n2 σ) = alter g n2 (alter f n1 σ).
Proof.
  intros Hne. apply map_eq. intros k. rewrite !lookup_alter.
  repeat case_decide; simplify_eq; done.
Qed.

Lemma post_signups_capacity calls σ :
  capacity_invariant σ → capacity_invariant (post_signups calls σ).1.
Proof.
  revert σ. induction calls as [|[n e] rest IH]; intros σ Hinv; [done|].
  simpl. apply IH. by apply signup_preserves_capacity.
Qed.
End SignupLocality.

Lemma post_signups_lookup
    (calls : list (string * string)) (σ : gmap string Activity)
    (name : string) (a : Activity) :
  σ !! name = Some a →
  (post_signups calls σ).1 !! name
  = Some (with_participants a
            (participants a
             ++ accepted_emails name calls (post_signups calls σ).2)).
Proof.
  revert σ a. induction calls as [|[n e] rest IH]; intros σ a Hlk.
  - simpl. by rewrite app_nil_r, with_participants_same.
  - cbn [post_signups fst snd].
    destruct (decide (n = name)) as [->|Hne].
    + destruct (Handler.outcome (signup_for_activity name e) σ)
        as [err|m] eqn:Hout; unfold Handler.outcome in Hout.
      * pose proof (signup_raised_inv _ _ _ _ Hout) as Hσ.
        unfold Handler.state_after in Hσ. rewrite Hout, Hσ. simpl.
        by apply IH.
      * destruct (signup_returned_inv _ _ _ _ Hout)
          as (a0 & Ha0 & _ & _ & Hσ & _).
        unfold Handler.state_after in Hσ. rewrite Hout, Hσ. simpl.
        rewrite decide_True by done.
        rewrite Hlk in Ha0. injection Ha0 as <-.
        rewrite (IH _ (with_participants a (participants a ++ [e])))
          by apply lookup_insert_eq.
        simpl. unfold with_participants. simpl. by rewrite <- app_assoc.
    + assert (Hkeep : (signup_for_activity n e σ).1 !! name = Some a)
        by (by rewrite signup_state_lookup_ne).
      rewrite (IH _ a Hkeep).
      destruct (signup_for_activity n e σ).2; simpl; [done|].
      by rewrite decide_False.
Qed.

(** X1: a signup returns exactly when the activity exists, the email is not
    on its roster and the roster is shorter than max_participants. *)
Theorem signup_returns_iff (σ : gmap string Activity) (name email : string) :
  (∃ m, Handler.outcome (signup_for_activity name email) σ = Returned m) ↔
  (∃ a, σ !! name = Some a ∧ (email ∉ participants a) ∧
        Z.of_nat (length (participants a)) < max_participants a).
Proof.
  unfold Handler.outcome. rewrite signup_for_activity_cases. split.
  - intros [m Hm]. destruct (σ !! name) as [a|]; [|done].
    case_bool_decide; [done|].
    destruct (_ <=? _) eqn:Hcap; [done|].
    exists a. split_and!; [done | done | by apply Z.leb_gt].
  - intros (a & -> & Hnot & Hfree).
    rewrite bool_decide_eq_false_2 by done.
    rewrite (proj2 (Z.leb_gt _ _) Hfree). by eexists.
Qed.

(** X2: every exception a signup raises carries status 404 or 400: 404
    when the activity name is not a key of the registry, 400 when it is. *)
Theorem signup_error_status
    (σ : gmap string Activity) (name email : string) (e : HTTPException) :
  Handler.outcome (signup_for_activity name email) σ = Raised e →
  (status_code e = 404 ∧ σ !! name = None) ∨
  (status_code e = 400 ∧ is_Some (σ !! name)).
Proof.
  unfold Handler.outcome. rewrite signup_for_activity_cases.
  destruct (σ !! name) as [a|].
  - case_bool_decide; [|destruct (_ <=? _)]; intros [= <-] || done;
      right; by eauto.
  - intros [= <-]. by left.
Qed.

Lemma signup_error_status_witness :
  (status_code Conflict_full = 404 ∧ full_house !! "Duo" = None) ∨
  (status_code Conflict_full = 400 ∧ is_Some (full_house !! "Duo")).
Proof.
  apply (signup_error_status full_house "Duo" "c@x.edu" Conflict_full).
  reflexivity.
Defined.

(** X3: after any sequence of signup calls, the roster of an activity is
    its roster from before the calls followed by exactly the emails whose
    signup for that activity was answered with success, in call order; its
    description, schedule and max_participants are what they were. *)
Theorem post_signups_roster
    (calls : list (string * string)) (σ : gmap string Activity)
    (name : string) (a : Activity) :
  σ !! name = Some a →
  (post_signups calls σ).1 !! name
  = Some (with_participants a
            (participants a
             ++ accepted_emails name calls (post_signups calls σ).2)).
Proof. apply post_signups_lookup. Qed.

Lemma post_signups_roster_witness :
  (post_signups
     [("Chess Club", "x@x.edu"); ("Art Club", "y@x.edu");
      ("Chess Club", "michael@mergington.edu"); ("Chess Club", "z@x.edu")]
     activities).1 !! "Chess Club"
  = Some (mkActivity "Learn strategies and compete in chess tournaments"
            "Fridays, 3:30 PM - 5:00 PM" 12
            ["michael@mergington.edu"; "daniel@mergington.edu";
             "x@x.edu"; "z@x.edu"]).
Proof.
  apply (post_signups_roster
           [("Chess Club", "x@x.edu"); ("Art Club", "y@x.edu");
            ("Chess Club", "michael@mergington.edu");
            ("Chess Club", "z@x.edu")]
           activities "Chess Club"
           (mkActivity "Learn strategies and compete in chess tournaments"
              "Fridays, 3:30 PM - 5:00 PM" 12
              ["michael@mergington.edu"; "daniel@mergington.edu"])).
  reflexivity.
Defined.

(** X4: no sequence of signup calls adds an activity to the registry or
    removes one: the set of activity names stays the same. *)
Theorem post_signups_dom
    (calls : list (string * string)) (σ : gmap string Activity) :
  dom (post_signups calls σ).1 = dom σ.
Proof.
  revert σ. induction calls as [|[n e] rest IH]; intros σ; [done|].
  simpl. by rewrite IH, signup_dom.
Qed.

(** X5: when the emails are pairwise distinct, none is on the roster and
    the roster has room for all of them, posting them one after the other
    succeeds every time and leaves the roster extended by the emails in
    posting order, the rest of the registry untouched. *)
Theorem post_signups_fill
    (emails : list string) (σ : gmap string Activity)
    (name : string) (a : Activity) :
  σ !! name = Some a →
  NoDup emails →
  (∀ e, e ∈ emails → e ∉ participants a) →
  Z.of_nat (length (participants a) + length emails) ≤ max_participants a →
  post_signups ((λ e, (name, e)) <$> emails) σ
  = (<[name := with_participants a (participants a ++ emails)]> σ,
     (λ e, Returned (mkMessage ("Signed up " +:+ e +:+ " for " +:+ name)))
       <$> emails).
Proof.
  revert σ a. induction emails as [|e rest IH]; intros σ a Hlk Hnd Hnew Hroom.
  - simpl. rewrite app_nil_r, with_participants_same. by rewrite insert_id.
  - apply NoDup_cons in Hnd as [He Hnd].
    cbn [fmap list_fmap post_signups].
    assert (Hstep : signup_for_activity name e σ
                    = (<[name := with_participants a (participants a ++ [e])]> σ,
                       Returned (mkMessage
                                   ("Signed up " +:+ e +:+ " for " +:+ name)))).
    { rewrite signup_for_activity_cases, Hlk.
      rewrite bool_decide_eq_false_2 by (apply Hnew; left).
      rewrite (proj2 (Z.leb_gt _ _)) by (simpl in Hroom; lia).
      f_equal.
      exact (alter_present
               (λ b, with_participants b (participants b ++ [e]))
               name σ a Hlk). }
    rewrite Hstep. cbn [fst snd].
    change (list_fmap _ _ ?f rest) with (f <$> rest).
    rewrite (IH _ (with_participants a (participants a ++ [e]))).
    + simpl. rewrite insert_insert_eq. unfold with_participants. simpl.
      by rewrite <- app_assoc.
    + apply lookup_insert_eq.
    + done.
    + intros e' He'. simpl. rewrite elem_of_app, list_elem_of_singleton.
      intros [Hin| ->]; [|done]. by apply (Hnew e'); [right|].
    + simpl. rewrite length_app. simpl. simpl in Hroom. lia.
Qed.

Lemma post_signups_fill_witness :
  post_signups
    ((λ e, ("Art Club", e))
       <$> ["student0@mergington.edu"; "student1@mergington.edu";
            "student2@mergington.edu"])
    activities
  = (<["Art Club" :=
         with_participants
           (mkActivity "Explore drawing, painting, and mixed media projects"
              "Wednesdays, 3:45 PM - 5:00 PM" 16
              ["isabella@mergington.edu"; "lucas@mergington.edu"])
           (["isabella@mergington.edu"; "lucas@mergington.edu"]
            ++ ["student0@mergington.edu"; "student1@mergington.edu";
                "student2@mergington.edu"])]> activities,
     (λ e, Returned (mkMessage ("Signed up " +:+ e +:+ " for Art Club")))
       <$> ["student0@mergington.edu"; "student1@mergington.edu";
            "student2@mergington.edu"]).
Proof.
  apply (post_signups_fill
           ["student0@mergington.edu"; "student1@mergington.edu";
            "student2@mergington.edu"]
           activities "Art Club"
           (mkActivity "Explore drawing, painting, and mixed media projects"
              "Wednesdays, 3:45 PM - 5:00 PM" 16
              ["isabella@mergington.edu"; "lucas@mergington.edu"])).
  - reflexivity.
  - compute_done.
  - apply Forall_forall. compute_done.
  - simpl. lia.
Defined.

(** X6: an activity whose roster has reached max_participants (or whose
    max_participants is zero or negative) is closed for good as far as
    signups go: whatever signup calls follow, its record stays the same
    and every further signup for it is answered with a 400. *)
Theorem full_activity_stays_full
    (calls : list (string * string)) (σ : gmap string Activity)
    (name email : string) (a : Activity) :
  σ !! name = Some a →
  max_participants a ≤ Z.of_nat (length (participants a)) →
  (post_signups calls σ).1 !! name = Some a ∧
  (Handler.outcome (signup_for_activity name email) (post_signups calls σ).1
   = Raised Conflict_already_registered ∨
   Handler.outcome (signup_for_activity name email) (post_signups calls σ).1
   = Raised Conflict_full).
Proof.
  intros Hlk Hfull.
  assert (Hkeep : (post_signups calls σ).1 !! name = Some a).
  { revert σ Hlk. induction calls as [|[n e] rest IH]; intros σ Hlk; [done|].
    cbn [post_signups fst]. apply IH.
    destruct (decide (n = name)) as [->|Hne].
    - rewrite signup_for_activity_cases, Hlk.
      case_bool_decide; [done|].
      by rewrite (proj2 (Z.leb_le _ _) Hfull).
    - by rewrite signup_state_lookup_ne. }
  split; [done|]. unfold Handler.outcome.
  rewrite signup_for_activity_cases, Hkeep.
  case_bool_decide; [by left|].
  rewrite (proj2 (Z.leb_le _ _) Hfull). by right.
Qed.

Lemma full_activity_stays_full_witness :
  (post_signups [("Duo", "c@x.edu"); ("Nowhere", "d@x.edu")] full_house).1
    !! "Duo"
  = Some (mkActivity "Two seats" "Never" 2 ["a@x.edu"; "b@x.edu"]) ∧
  (Handler.outcome (signup_for_activity "Duo" "e@x.edu")
     (post_signups [("Duo", "c@x.edu"); ("Nowhere", "d@x.edu")] full_house).1
   = Raised Conflict_already_registered ∨
   Handler.outcome (signup_for_activity "Duo" "e@x.edu")
     (post_signups [("Duo", "c@x.edu"); ("Nowhere", "d@x.edu")] full_house).1
   = Raised Conflict_full).
Proof.
  apply (full_activity_stays_full
           [("Duo", "c@x.edu"); ("Nowhere", "d@x.edu")] full_house
           "Duo" "e@x.edu"
           (mkActivity "Two seats" "Never" 2 ["a@x.edu"; "b@x.edu"])).
  - reflexivity.
  - simpl. lia.
Defined.

(** X7: signups for two different activities do not interfere: posted in
    either order they get the same two answers and leave the same
    registry.  In particular one email can be signed up for several
    activities. *)
Theorem signups_commute
    (σ : gmap string Activity) (n1 e1 n2 e2 : string) :
  n1 ≠ n2 →
  (post_signups [(n1, e1); (n2, e2)] σ).1
  = (post_signups [(n2, e2); (n1, e1)] σ).1 ∧
  (post_signups [(n1, e1); (n2, e2)] σ).2
  = reverse (post_signups [(n2, e2); (n1, e1)] σ).2.
Proof.
  intros Hne. cbn [post_signups fst snd reverse rev_append].
  destruct (signup_depends_on_lookup n2 e2 σ (signup_for_activity n1 e1 σ).1)
    as [Hout2 Hst2]; [by rewrite signup_state_lookup_ne|].
  destruct (signup_depends_on_lookup n1 e1 σ (signup_for_activity n2 e2 σ).1)
    as [Hout1 Hst1]; [by rewrite signup_state_lookup_ne|].
  split; [|by rewrite <- Hout1, <- Hout2].
  destruct Hst2 as [[H2 H2']|[H2 H2']], Hst1 as [[H1 H1']|[H1 H1']];
    rewrite H2', H1'; rewrite ?H1, ?H2; try done.
  by apply alter_alter_ne.
Qed.

Lemma signups_commute_witness :
  (post_signups [("Chess Club", "multi@x.edu"); ("Art Club", "multi@x.edu")]
     activities).1
  = (post_signups [("Art Club", "multi@x.edu"); ("Chess Club", "multi@x.edu")]
       activities).1 ∧
  (post_signups [("Chess Club", "multi@x.edu"); ("Art Club", "multi@x.edu")]
     activities).2
  = reverse
      (post_signups
         [("Art Club", "multi@x.edu"); ("Chess Club", "multi@x.edu")]
         activities).2.
Proof.
  apply (signups_commute activities "Chess Club" "multi@x.edu"
           "Art Club" "multi@x.edu").
  discriminate.
Defined.

(** X8: in any sequence of signup calls, the emails accepted for one
    activity are pairwise distinct and none of them was on its roster
    before: nobody is put on a roster twice. *)
Theorem accepted_emails_fresh
    (calls : list (string * string)) (σ : gmap string Activity)
    (name : string) (a : Activity) :
  σ !! name = Some a →
  NoDup (accepted_emails name calls (post_signups calls σ).2) ∧
  ∀ e, e ∈ accepted_emails name calls (post_signups calls σ).2 →
       e ∉ participants a.
Proof.
  revert σ a. induction calls as [|[n e] rest IH]; intros σ a Hlk.
  - simpl. split; [constructor | by intros e ?%elem_of_nil].
  - cbn [post_signups fst snd].
    destruct (Handler.outcome (signup_for_activity n e) σ) as [err|m] eqn:Hout;
      unfold Handler.outcome in Hout; rewrite Hout.
    + pose proof (signup_raised_inv _ _ _ _ Hout) as Hσ.
      unfold Handler.state_after in Hσ. rewrite Hσ. simpl. by apply IH.
    + simpl. destruct (decide (n = name)) as [->|Hne].
      * destruct (signup_returned_inv _ _ _ _ Hout)
          as (a0 & Ha0 & Hnot & _ & Hσ & _).
        unfold Handler.state_after in Hσ. rewrite Hσ.
        rewrite Hlk in Ha0. injection Ha0 as <-.
        destruct (IH (<[name := with_participants a (participants a ++ [e])]> σ)
                    (with_participants a (participants a ++ [e])))
          as [Hnd Hfresh]; [apply lookup_insert_eq|].
        simpl in Hfresh. split.
        -- constructor; [|done]. intros Hin. apply (Hfresh e Hin).
           apply elem_of_app. right. by apply list_elem_of_singleton.
        -- intros e' [->|Hin]%elem_of_cons; [done|].
           intros Hps. apply (Hfresh e' Hin). apply elem_of_app. by left.
      * apply IH. by rewrite signup_state_lookup_ne.
Qed.

Lemma accepted_emails_fresh_witness :
  NoDup (accepted_emails "Chess Club"
           [("Chess Club", "x@x.edu"); ("Chess Club", "x@x.edu")]
           (post_signups [("Chess Club", "x@x.edu"); ("Chess Club", "x@x.edu")]
              activities).2) ∧
  ∀ e, e ∈ accepted_emails "Chess Club"
             [("Chess Club", "x@x.edu"); ("Chess Club", "x@x.edu")]
             (post_signups
                [("Chess Club", "x@x.edu"); ("Chess Club", "x@x.edu")]
                activities).2 →
       e ∉ ["michael@mergington.edu"; "daniel@mergington.edu"].
Proof.
  apply (accepted_emails_fresh
           [("Chess Club", "x@x.edu"); ("Chess Club", "x@x.edu")]
           activities "Chess Club"
           (mkActivity "Learn strategies and compete in chess tournaments"
              "Fridays, 3:30 PM - 5:00 PM" 12
              ["michael@mergington.edu"; "daniel@mergington.edu"])).
  reflexivity.
Defined.

(** X9: no overbooking over time: starting from a registry in which no
    roster exceeds its max_participants, a sequence of signup calls gets
    at most as many acceptances for an activity as it had free seats. *)
Theorem accepted_emails_bounded
    (calls : list (string * string)) (σ : gmap string Activity)
    (name : string) (a : Activity) :
  capacity_invariant σ →
  σ !! name = Some a →
  Z.of_nat (length (accepted_emails name calls (post_signups calls σ).2))
  ≤ max_participants a - Z.of_nat (length (participants a)).
Proof.
  intros Hinv Hlk.
  pose proof (post_signups_capacity calls σ Hinv) as Hfinal.
  pose proof (post_signups_lookup calls σ name a Hlk) as Hroster.
  specialize (Hfinal _ _ Hroster). unfold capacity_ok in Hfinal.
  simpl in Hfinal. rewrite length_app in Hfinal. lia.
Qed.

Lemma accepted_emails_bounded_witness :
  Z.of_nat
    (length
       (accepted_emails "Duo"
          [("Duo", "c@x.edu"); ("Duo", "d@x.edu")]
          (post_signups [("Duo", "c@x.edu"); ("Duo", "d@x.edu")]
             full_house).2))
  ≤ 2 - Z.of_nat (length ["a@x.edu"; "b@x.edu"]).
Proof.
  apply (accepted_emails_bounded
           [("Duo", "c@x.edu"); ("Duo", "d@x.edu")] full_house "Duo"
           (mkActivity "Two seats" "Never" 2 ["a@x.edu"; "b@x.edu"])).
  - compute_done.
  - reflexivity.
Defined.

(** ** The test runner *)

Section Runner.
Import RunTests.

Example rule_is_sixty_wide : String.length rule = 60%nat.
Proof. reflexivity. Qed.

Example str_replace_leftmost_first : str_replace "aaa" "aa" "b" = "ba".
Proof. reflexivity. Qed.

Example str_replace_every_occurrence :
  str_replace "tests/ and tests/" "tests/" "t.py" = "t.py and t.py".
Proof. reflexivity. Qed.

Example str_replace_empty_pattern : str_replace "abc" "" "-" = "-a-b-c-".
Proof. reflexivity. Qed.
End Runner.

Lemma coverage_flag_eq (args : RunTests.Namespace) :
  RunTests.str_contains "--cov=" (RunTests.pytest_command args).1
  = RunTests.with_coverage args.
Proof. destruct args as [[] [] [] [] [] []]; reflexivity. Qed.

(** X10: the command line main builds is always
    [python -m pytest <target>], then [-v] when --verbose is given, then
    the coverage options; the target is picked by the first of --api,
    --validation, --performance that is set (all of tests/ when none is),
    so --api wins over the other two and --validation over --performance.
    The description names the same target and ends in "with Coverage"
    exactly when coverage options were added. *)
Theorem pytest_command_shape (args : RunTests.Namespace) :
  RunTests.pytest_command args
  = ("python -m pytest " +:+ RunTests.target args
     +:+ (if RunTests.verbose args then " -v" else "")
     +:+ RunTests.coverage_options args,
     RunTests.base_description args
     +:+ (if RunTests.with_coverage args then " with Coverage" else "")).
Proof.
  destruct args as [[] [] [] [] [] []]; reflexivity.
Qed.

(** X11: the command line carries coverage options exactly when --quick is
    not given and either --coverage is given or no test file is selected;
    with --quick it never does, whatever else is asked for. *)
Theorem coverage_on_command_line (args : RunTests.Namespace) :
  RunTests.str_contains "--cov=" (RunTests.pytest_command args).1
  = RunTests.with_coverage args ∧
  (RunTests.quick args = true →
   RunTests.str_contains "--cov=" (RunTests.pytest_command args).1 = false).
Proof.
  destruct args as [[] [] [] [] [] []]; split; done.
Qed.

Lemma coverage_on_command_line_witness :
  RunTests.str_contains "--cov="
    (RunTests.pytest_command
       (RunTests.mkNamespace true true false false false true)).1
  = false.
Proof.
  apply (proj2 (coverage_on_command_line
                  (RunTests.mkNamespace true true false false false true))).
  reflexivity.
Defined.

(** X12: the script exits with status 0 when the shell returns 0 for the
    pytest command and with status 1 otherwise, whatever non-zero code the
    shell returned. *)
Theorem main_exit_status (shell : string → Z) (args : RunTests.Namespace) :
  (shell (RunTests.pytest_command args).1 = 0 →
   (RunTests.main shell args).2 = 0) ∧
  (shell (RunTests.pytest_command args).1 ≠ 0 →
   (RunTests.main shell args).2 = 1).
Proof.
  unfold RunTests.main, RunTests.run_command.
  destruct (RunTests.pytest_command args) as [cmd descr]. simpl.
  destruct (decide (shell cmd = 0)) as [Hz|Hnz].
  - split; [|done]. intros _. by destruct (RunTests.str_contains _ _).
  - split; [done|]. by intros _.
Qed.

Lemma main_exit_status_witness :
  (RunTests.main (λ _, 0)
     (RunTests.mkNamespace false false false true false false)).2 = 0 ∧
  (RunTests.main (λ _, 5)
     (RunTests.mkNamespace false false false true false false)).2 = 1.
Proof.
  split.
  - apply (proj1 (main_exit_status (λ _, 0)
                    (RunTests.mkNamespace false false false true false false))).
    reflexivity.
  - apply (proj2 (main_exit_status (λ _, 5)
                    (RunTests.mkNamespace false false false true false false))).
    discriminate.
Defined.

(** X13: the line announcing the coverage report is printed exactly when
    the pytest command succeeded and coverage options were on its command
    line; a failed or --quick run never prints it. *)
Theorem coverage_report_announced
    (shell : string → Z) (args : RunTests.Namespace) :
  "📊 Coverage report generated in htmlcov/index.html"
    ∈ (RunTests.main shell args).1
  ↔ shell (RunTests.pytest_command args).1 = 0 ∧
    RunTests.with_coverage args = true.
Proof.
  unfold RunTests.main, RunTests.run_command.
  rewrite <- (coverage_flag_eq args).
  destruct (RunTests.pytest_command args) as [cmd descr]. cbn [fst snd].
  destruct (decide (shell cmd = 0)) as [Hz|Hnz];
    [destruct (RunTests.str_contains "--cov=" cmd)|];
    cbn [fst snd]; rewrite ?elem_of_app, ?elem_of_cons, ?elem_of_nil.
  - split; [by auto|]. intros _. by auto.
  - split; [|by intros [_ ?]].
    intros H. exfalso.
    repeat destruct H as [H|H]; try done; lazy in H; discriminate H.
  - split; [|by intros [? _]].
    intros H. exfalso.
    repeat destruct H as [H|H]; try done; lazy in H; discriminate H.
Qed.
